(** * Phone Contacts API: the contact registry of [app.py]

    A shallow embedding of the Flask handlers of [src/app.py] and of the
    two module-level globals they share, [contacts_db] and
    [contact_counter].  The handlers are modelled from the value that
    [request.get_json()] hands them up to the pair (JSON body, status)
    they return; routing, header injection and template rendering stay
    outside. *)

From Stdlib Require Import ZArith List String Ascii Bool Lia.
From Stdlib Require Import SpecFloat DecimalString Sorted.
Import ListNotations.

Set Warnings "-register-all".

Local Open Scope string_scope.
Local Open Scope list_scope.
Local Open Scope Z_scope.

(** ** Python values that cross the HTTP boundary *)

(** What [json.loads] produces: [None], [bool], [int], [float], [str],
    [list] and [dict] with string keys.  A [dict] keeps its insertion
    order, so it is an association list. *)
Inductive json : Type :=
| JNull
| JBool (b : bool)
| JInt (n : Z)
| JFloat (x : spec_float)
| JStr (s : string)
| JArr (xs : list json)
| JObj (kvs : list (string * json)).

(** Exceptions the handlers can let escape (Flask answers them with 500). *)
Inductive exn : Type := TypeError | KeyError | AttributeError.

Inductive result (A : Type) : Type :=
| Ok (a : A)
| Raise (e : exn).
Arguments Ok {A} a.
Arguments Raise {A} e.

Definition bind {A B : Type} (m : result A) (k : A -> result B) : result B :=
  match m with
  | Ok a => k a
  | Raise e => Raise e
  end.

Notation "x <- m ;; k" := (bind m (fun x => k))
  (at level 61, m at next level, right associativity).

(** ** Python's insertion-ordered [dict] *)

Section PyDict.
Context {K V : Type}.
Variable eqb : K -> K -> bool.

Definition dict := list (K * V).

(** [d.get(k)] *)
Fixpoint dict_get (k : K) (d : dict) : option V :=
  match d with
  | [] => None
  | (k', v) :: d' => if eqb k k' then Some v else dict_get k d'
  end.

(** [k in d] *)
Definition dict_contains (k : K) (d : dict) : bool :=
  match dict_get k d with
  | Some _ => true
  | None => false
  end.

(** [d[k] = v]: an existing key keeps its position, a new one goes last. *)
Fixpoint dict_set (k : K) (v : V) (d : dict) : dict :=
  match d with
  | [] => [(k, v)]
  | (k', v') :: d' =>
      if eqb k k' then (k', v) :: d' else (k', v') :: dict_set k v d'
  end.

(** The mapping left by [d.pop(k)]. *)
Fixpoint dict_remove (k : K) (d : dict) : dict :=
  match d with
  | [] => []
  | (k', v') :: d' =>
      if eqb k k' then d' else (k', v') :: dict_remove k d'
  end.

(** [d.pop(k)]: the value and the remaining mapping; [None] stands for
    the [KeyError] of a missing key. *)
Definition dict_pop (k : K) (d : dict) : option (V * dict) :=
  match dict_get k d with
  | Some v => Some (v, dict_remove k d)
  | None => None
  end.

Definition dict_keys (d : dict) : list K := map fst d.

(** [list(d.values())] *)
Definition dict_values (d : dict) : list V := map snd d.

(** [len(d)] *)
Definition dict_len (d : dict) : Z := Z.of_nat (List.length d).
End PyDict.

Arguments dict : clear implicits.

(** ** The operators the handlers apply to the request body *)

(** [bool(v)], as [not data] uses it. *)
Definition truthy (v : json) : bool :=
  match v with
  | JNull => false
  | JBool b => b
  | JInt n => negb (n =? 0)
  | JFloat (S754_zero _) => false
  | JFloat _ => true
  | JStr s => negb (String.eqb s "")
  | JArr xs => negb (Nat.eqb (List.length xs) 0)
  | JObj kvs => negb (Nat.eqb (List.length kvs) 0)
  end.

(** [sub in s] on two strings: substring search. *)
Fixpoint str_contains (sub s : string) : bool :=
  if String.prefix sub s then true
  else match s with
       | EmptyString => false
       | String _ s' => str_contains sub s'
       end.

(** ['...' == v] for a string literal on the left. *)
Definition str_eq_json (s : string) (v : json) : bool :=
  match v with
  | JStr t => String.eqb s t
  | _ => false
  end.

(** [key in data]: key lookup on a dict, element search on a list,
    substring search on a str, [TypeError] on everything else. *)
Definition py_in (key : string) (data : json) : result bool :=
  match data with
  | JObj kvs => Ok (dict_contains String.eqb key kvs)
  | JArr xs => Ok (existsb (str_eq_json key) xs)
  | JStr s => Ok (str_contains key s)
  | JNull | JBool _ | JInt _ | JFloat _ => Raise TypeError
  end.

(** [data[key]] with a string key: only a dict can be indexed that way. *)
Definition py_getitem (data : json) (key : string) : result json :=
  match data with
  | JObj kvs =>
      match dict_get String.eqb key kvs with
      | Some v => Ok v
      | None => Raise KeyError
      end
  | _ => Raise TypeError
  end.

(** [data.get(key, default)]: only a dict has the method. *)
Definition py_get (data : json) (key : string) (default : json) : result json :=
  match data with
  | JObj kvs =>
      match dict_get String.eqb key kvs with
      | Some v => Ok v
      | None => Ok default
      end
  | _ => Raise AttributeError
  end.

(** [str(n)] on an int, as the f-strings use it. *)
Definition str_of_int (n : Z) : string := NilZero.string_of_int (Z.to_int n).

(** ** Requests, responses and the registry state *)

Inductive http_method : Type := POST | OPTIONS.

(** A request to [/contacts]: its method and what [request.get_json()]
    returns for its body ([JNull] is Python's [None]). *)
Record request : Type := mkRequest {
  method : http_method;
  get_json : json
}.

(** A handler's return value [(jsonify(body), status)]. *)
Record response : Type := mkResponse {
  body : json;
  status : Z
}.

Definition jsonify (d : dict string json) : json := JObj d.

(** The two globals. *)
Record registry : Type := mkRegistry {
  contacts_db : dict Z (dict string json);
  contact_counter : Z
}.

(** [contacts_db = {}], [contact_counter = 1] *)
Definition fresh : registry := mkRegistry [] 1.

Definition handler : Type := registry -> result response * registry.

(** ** The handlers *)

(** ['name' not in data or 'phone' not in data], left to right. *)
Definition missing_required (data : json) : result bool :=
  has_name <- py_in "name" data ;;
  if negb has_name then Ok true
  else has_phone <- py_in "phone" data ;; Ok (negb has_phone).

(** The dict display of lines 93-98, its values evaluated in order. *)
Definition new_contact (contact_id : Z) (data : json)
  : result (dict string json) :=
  name <- py_getitem data "name" ;;
  phone <- py_getitem data "phone" ;;
  email <- py_get data "email" (JStr "") ;;
  Ok [("id", JInt contact_id); ("name", name); ("phone", phone);
      ("email", email)].

Definition create_contact (request : request) : handler := fun st =>
  match method request with
  | OPTIONS => (Ok (mkResponse (jsonify [("status", JStr "ok")]) 200), st)
  | POST =>
      let data := get_json request in
      if negb (truthy data) then
        (Ok (mkResponse (jsonify [("error", JStr "No data provided")]) 400),
         st)
      else
        match missing_required data with
        | Raise e => (Raise e, st)
        | Ok true =>
            (Ok (mkResponse
                   (jsonify [("error", JStr "Name and phone are required")])
                   400), st)
        | Ok false =>
            let contact_id := contact_counter st in
            let st1 := mkRegistry (contacts_db st) (contact_counter st + 1) in
            match new_contact contact_id data with
            | Raise e => (Raise e, st1)
            | Ok contact =>
                let st2 :=
                  mkRegistry
                    (dict_set Z.eqb contact_id contact (contacts_db st1))
                    (contact_counter st1) in
                match dict_get Z.eqb contact_id (contacts_db st2) with
                | Some stored => (Ok (mkResponse (jsonify stored) 201), st2)
                | None => (Raise KeyError, st2)
                end
            end
        end
  end.

Definition not_found (contact_id : Z) : response :=
  mkResponse
    (jsonify [("error",
               JStr ("Contact with ID " ++ str_of_int contact_id
                     ++ " not found")%string)])
    404.

(** [if not contact]: [None] and the empty dict are both falsy. *)
Definition get_contact (contact_id : Z) : handler := fun st =>
  match dict_get Z.eqb contact_id (contacts_db st) with
  | None => (Ok (not_found contact_id), st)
  | Some contact =>
      if negb (truthy (JObj contact)) then (Ok (not_found contact_id), st)
      else (Ok (mkResponse (jsonify contact) 200), st)
  end.

Definition delete_contact (contact_id : Z) : handler := fun st =>
  if negb (dict_contains Z.eqb contact_id (contacts_db st)) then
    (Ok (not_found contact_id), st)
  else
    match dict_pop Z.eqb contact_id (contacts_db st) with
    | None => (Raise KeyError, st)
    | Some (deleted_contact, db') =>
        (Ok (mkResponse
               (jsonify
                  [("message",
                    JStr ("Contact " ++ str_of_int contact_id
                          ++ " deleted successfully")%string);
                   ("deleted_contact", JObj deleted_contact)])
               200),
         mkRegistry db' (contact_counter st))
    end.

Definition get_all_contacts : handler := fun st =>
  (Ok (mkResponse
         (jsonify
            [("contacts", JArr (map JObj (dict_values (contacts_db st))));
             ("count", JInt (dict_len (contacts_db st)))])
         200), st).

Definition health_check : handler := fun st =>
  (Ok (mkResponse
         (jsonify
            [("status", JStr "healthy");
             ("contacts_count", JInt (dict_len (contacts_db st)));
             ("service", JStr "Phone Contacts API v1.0")])
         200), st).

(** ** Sequences of requests *)

Inductive op : Type :=
| OpCreate (r : request)
| OpGet (contact_id : Z)
| OpDelete (contact_id : Z)
| OpList
| OpHealth.

Definition step (o : op) : handler :=
  match o with
  | OpCreate r => create_contact r
  | OpGet contact_id => get_contact contact_id
  | OpDelete contact_id => delete_contact contact_id
  | OpList => get_all_contacts
  | OpHealth => health_check
  end.

(** The requests are served one after the other; the globals survive an
    escaping exception as the handler left them. *)
Fixpoint run (ops : list op) (st : registry)
  : list (result response) * registry :=
  match ops with
  | [] => ([], st)
  | o :: ops' =>
      let (r, st1) := step o st in
      let (rs, st2) := run ops' st1 in
      (r :: rs, st2)
  end.

Inductive reachable : registry -> Prop :=
| reachable_fresh : reachable fresh
| reachable_step (o : op) (st : registry) :
    reachable st -> reachable (snd (step o st)).

(** ** Reading a response *)

Definition json_field (key : string) (v : json) : option json :=
  match v with
  | JObj kvs => dict_get String.eqb key kvs
  | _ => None
  end.

Definition json_int (v : option json) : option Z :=
  match v with
  | Some (JInt n) => Some n
  | _ => None
  end.

Definition has_status (code : Z) (r : result response) : bool :=
  match r with
  | Ok resp => status resp =? code
  | Raise _ => false
  end.

(** The id a client reads in the body of a 201 answer. *)
Definition created_id (r : result response) : option Z :=
  match r with
  | Ok resp =>
      if status resp =? 201 then json_int (json_field "id" (body resp))
      else None
  | Raise _ => None
  end.

Fixpoint created_ids (rs : list (result response)) : list Z :=
  match rs with
  | [] => []
  | r :: rs' =>
      match created_id r with
      | Some n => n :: created_ids rs'
      | None => created_ids rs'
      end
  end.

(** The [count] of a List answer. *)
Definition response_count (r : result response) : option Z :=
  match r with
  | Ok resp => json_int (json_field "count" (body resp))
  | Raise _ => None
  end.

(** The ids [1; 2; ...; n]. *)
Definition ids_upto (n : nat) : list Z := map Z.of_nat (seq 1 n).

(** A body that the documented schema of POST /contacts admits, or no
    body at all. *)
Definition object_or_absent (data : json) : bool :=
  match data with
  | JObj _ | JNull => true
  | _ => false
  end.

Definition object_payload (o : op) : bool :=
  match o with
  | OpCreate r => object_or_absent (get_json r)
  | _ => true
  end.

(** A payload "has the key" only when it is a dict holding it. *)
Definition has_key (key : string) (data : json) : bool :=
  match data with
  | JObj kvs => dict_contains String.eqb key kvs
  | _ => false
  end.

(** ** The outcomes of Create *)

(** The record that lines 93-98 build. *)
Definition contact_of (contact_id : Z) (name phone email : json)
  : dict string json :=
  [("id", JInt contact_id); ("name", name); ("phone", phone);
   ("email", email)].

(** [data.get('email', '')] on a dict. *)
Definition email_of (d : dict string json) : json :=
  match dict_get String.eqb "email" d with
  | Some e => e
  | None => JStr ""
  end.

(** The ways a call of [create_contact] can end. *)
Inductive create_outcome (req : request) (st : registry)
  : result response * registry -> Prop :=
| create_preflight :
    method req = OPTIONS ->
    create_outcome req st
      (Ok (mkResponse (jsonify [("status", JStr "ok")]) 200), st)
| create_invalid (msg : string) :
    method req = POST ->
    truthy (get_json req) = false \/
    has_key "name" (get_json req) = false \/
    has_key "phone" (get_json req) = false ->
    create_outcome req st
      (Ok (mkResponse (jsonify [("error", JStr msg)]) 400), st)
| create_raised_before (e : exn) :
    method req = POST ->
    object_or_absent (get_json req) = false ->
    create_outcome req st (Raise e, st)
| create_raised_after (e : exn) :
    method req = POST ->
    object_or_absent (get_json req) = false ->
    create_outcome req st
      (Raise e, mkRegistry (contacts_db st) (contact_counter st + 1))
| create_stored (d : dict string json) (name phone : json) :
    method req = POST ->
    get_json req = JObj d ->
    dict_get String.eqb "name" d = Some name ->
    dict_get String.eqb "phone" d = Some phone ->
    create_outcome req st
      (Ok (mkResponse
             (jsonify (contact_of (contact_counter st) name phone
                         (email_of d)))
             201),
       mkRegistry
         (dict_set Z.eqb (contact_counter st)
            (contact_of (contact_counter st) name phone (email_of d))
            (contacts_db st))
         (contact_counter st + 1)).

(** ** The invariant of the two globals *)

Definition well_formed_contact (k : Z) (contact : dict string json) : Prop :=
  exists name phone email, contact = contact_of k name phone email.

Record registry_inv (st : registry) : Prop := mkInv {
  inv_sorted : StronglySorted Z.lt (dict_keys (contacts_db st));
  inv_issued :
    Forall (fun k => 1 <= k < contact_counter st) (dict_keys (contacts_db st));
  inv_counter : 1 <= contact_counter st;
  inv_contacts :
    Forall (fun p => well_formed_contact (fst p) (snd p)) (contacts_db st)
}.

(** ** The bodies and records of the specification's scenario *)

Definition ivan_body : json :=
  JObj [("name", JStr "Ivan Ivanov"); ("phone", JStr "+7 999 123-45-67")].

Definition anna_body : json :=
  JObj [("name", JStr "Anna"); ("phone", JStr "1");
        ("email", JStr "a@x.com")].

Definition ivan_record : dict string json :=
  [("id", JInt 1); ("name", JStr "Ivan Ivanov");
   ("phone", JStr "+7 999 123-45-67"); ("email", JStr "")].

Definition anna_record : dict string json :=
  [("id", JInt 2); ("name", JStr "Anna"); ("phone", JStr "1");
   ("email", JStr "a@x.com")].

(** A JSON array that happens to list the two required names. *)
Definition list_body : json := JArr [JStr "name"; JStr "phone"].

(** ** Counting along a run *)

(** A Delete request that was answered 200. *)
Definition is_delete_ok (p : op * result response) : bool :=
  match fst p with
  | OpDelete _ => has_status 200 (snd p)
  | _ => false
  end.

Definition successful_deletes (ops : list op) (rs : list (result response))
  : nat :=
  List.length (filter is_delete_ok (combine ops rs)).

(** Whether a Delete of the id is among the requests. *)
Definition deletes (k : Z) (ops : list op) : bool :=
  existsb (fun o => match o with OpDelete i => i =? k | _ => false end) ops.


(** ** Facts about the ordered dict *)

Section PyDictFacts.
Context {K V : Type}.
Variable eqb : K -> K -> bool.
Hypothesis eqb_eq : forall x y, eqb x y = true <-> x = y.

Lemma eqb_refl (k : K) : eqb k k = true.
Proof. now apply eqb_eq. Qed.

Lemma eqb_neq (k k' : K) : k <> k' -> eqb k k' = false.
Proof.
  intros Hne. destruct (eqb k k') eqn:E; [|reflexivity].
  apply eqb_eq in E. contradiction.
Qed.

Lemma dict_get_None (k : K) (d : dict K V) :
  dict_get eqb k d = None <-> ~ In k (dict_keys d).
Proof.
  induction d as [|[k' v'] d IH]; simpl.
  - tauto.
  - destruct (eqb k k') eqn:E.
    + apply eqb_eq in E. subst. split; [discriminate | tauto].
    + rewrite IH. split.
      * intros Hn [Heq|Hin]; [|tauto].
        subst. rewrite eqb_refl in E. discriminate.
      * tauto.
Qed.

Lemma dict_get_In (k : K) (v : V) (d : dict K V) :
  dict_get eqb k d = Some v -> In (k, v) d.
Proof.
  induction d as [|[k' v'] d IH]; simpl; [discriminate|].
  destruct (eqb k k') eqn:E.
  - apply eqb_eq in E. intros [= ->]. subst. now left.
  - auto.
Qed.

Lemma In_dict_get (k : K) (v : V) (d : dict K V) :
  NoDup (dict_keys d) -> In (k, v) d -> dict_get eqb k d = Some v.
Proof.
  induction d as [|[k' v'] d IH]; simpl; [tauto|].
  intros Hnd [Heq|Hin].
  - injection Heq as -> ->. now rewrite eqb_refl.
  - inversion Hnd as [|? ? Hnotin Hnd']; subst.
    rewrite eqb_neq; [auto|].
    intros ->. apply Hnotin. unfold dict_keys.
    change k' with (fst (k', v)). now apply in_map.
Qed.

Lemma dict_get_set_same (k : K) (v : V) (d : dict K V) :
  dict_get eqb k (dict_set eqb k v d) = Some v.
Proof.
  induction d as [|[k' v'] d IH]; simpl.
  - now rewrite eqb_refl.
  - destruct (eqb k k') eqn:E; simpl; rewrite E; auto.
Qed.

Lemma dict_get_set_other (k k' : K) (v : V) (d : dict K V) :
  k <> k' -> dict_get eqb k' (dict_set eqb k v d) = dict_get eqb k' d.
Proof.
  intros Hne. induction d as [|[k0 v0] d IH]; simpl.
  - rewrite eqb_neq; auto.
  - destruct (eqb k k0) eqn:E; simpl.
    + apply eqb_eq in E. subst.
      now rewrite (eqb_neq k' k0) by congruence.
    + now rewrite IH.
Qed.

Lemma dict_set_fresh (k : K) (v : V) (d : dict K V) :
  dict_get eqb k d = None -> dict_set eqb k v d = d ++ [(k, v)].
Proof.
  induction d as [|[k' v'] d IH]; simpl; [reflexivity|].
  destruct (eqb k k'); [discriminate|].
  intros Hn. now rewrite IH.
Qed.

Lemma dict_remove_filter (k : K) (d : dict K V) :
  NoDup (dict_keys d) ->
  dict_remove eqb k d = filter (fun p => negb (eqb k (fst p))) d.
Proof.
  induction d as [|[k' v'] d IH]; simpl; [reflexivity|].
  intros Hnd. inversion Hnd as [|? ? Hnotin Hnd']; subst.
  destruct (eqb k k') eqn:E; simpl.
  - apply eqb_eq in E. subst.
    symmetry. apply forallb_filter_id. apply forallb_forall.
    intros [k0 v0] Hin. simpl. rewrite eqb_neq; [reflexivity|].
    intros ->. apply Hnotin. unfold dict_keys.
    change k0 with (fst (k0, v0)). now apply in_map.
  - now rewrite IH.
Qed.

Lemma dict_remove_keys_incl (k : K) (d : dict K V) :
  incl (dict_keys (dict_remove eqb k d)) (dict_keys d).
Proof.
  induction d as [|[k' v'] d IH]; simpl; [apply incl_refl|].
  destruct (eqb k k'); simpl.
  - apply incl_tl, incl_refl.
  - intros x [Hx|Hx]; [now left|right; now apply IH].
Qed.

Lemma dict_remove_incl (k : K) (d : dict K V) :
  incl (dict_remove eqb k d) d.
Proof.
  induction d as [|[k' v'] d IH]; simpl; [apply incl_refl|].
  destruct (eqb k k'); simpl.
  - apply incl_tl, incl_refl.
  - intros x [Hx|Hx]; [now left|right; now apply IH].
Qed.

Lemma dict_get_remove_same (k : K) (d : dict K V) :
  NoDup (dict_keys d) -> dict_get eqb k (dict_remove eqb k d) = None.
Proof.
  induction d as [|[k' v'] d IH]; simpl; [reflexivity|].
  intros Hnd. inversion Hnd as [|? ? Hnotin Hnd']; subst.
  destruct (eqb k k') eqn:E; simpl.
  - apply eqb_eq in E. subst. now apply dict_get_None.
  - rewrite E. auto.
Qed.

Lemma dict_get_remove_other (k k' : K) (d : dict K V) :
  k <> k' -> dict_get eqb k' (dict_remove eqb k d) = dict_get eqb k' d.
Proof.
  intros Hne. induction d as [|[k0 v0] d IH]; simpl; [reflexivity|].
  destruct (eqb k k0) eqn:E; simpl.
  - apply eqb_eq in E. subst. now rewrite eqb_neq by congruence.
  - now rewrite IH.
Qed.

Lemma dict_remove_length (k : K) (v : V) (d : dict K V) :
  dict_get eqb k d = Some v ->
  S (List.length (dict_remove eqb k d)) = List.length d.
Proof.
  induction d as [|[k' v'] d IH]; cbn [dict_get dict_remove];
    [discriminate|].
  destruct (eqb k k') eqn:E; [reflexivity|].
  intros Hg. cbn [List.length]. now rewrite (IH Hg).
Qed.

Lemma dict_len_remove (k : K) (v : V) (d : dict K V) :
  dict_get eqb k d = Some v ->
  dict_len (dict_remove eqb k d) = dict_len d - 1.
Proof.
  intros Hg. unfold dict_len.
  rewrite <- (dict_remove_length k v d Hg). lia.
Qed.

Lemma dict_len_values (d : dict K V) :
  dict_len d = Z.of_nat (List.length (dict_values d)).
Proof. unfold dict_len, dict_values. now rewrite length_map. Qed.
End PyDictFacts.

(** ** What each handler does, case by case *)

Lemma Zeqb_eq (x y : Z) : (x =? y) = true <-> x = y.
Proof. apply Z.eqb_eq. Qed.

Lemma create_contact_stored (st : registry) (d : dict string json)
    (name phone : json) :
  dict_get String.eqb "name" d = Some name ->
  dict_get String.eqb "phone" d = Some phone ->
  create_contact (mkRequest POST (JObj d)) st =
  (Ok (mkResponse
         (jsonify (contact_of (contact_counter st) name phone (email_of d)))
         201),
   mkRegistry
     (dict_set Z.eqb (contact_counter st)
        (contact_of (contact_counter st) name phone (email_of d))
        (contacts_db st))
     (contact_counter st + 1)).
Proof.
  intros Hname Hphone. unfold create_contact. cbn [method get_json].
  assert (Ht : truthy (JObj d) = true).
  { destruct d; [discriminate Hname | reflexivity]. }
  rewrite Ht. cbn [negb].
  unfold missing_required, py_in, dict_contains.
  rewrite Hname, Hphone. cbn [bind negb].
  unfold new_contact, py_getitem, py_get.
  rewrite Hname, Hphone. cbn [bind].
  cbn [contacts_db contact_counter].
  unfold contact_of, email_of.
  destruct (dict_get String.eqb "email" d); cbn [bind];
    now rewrite (dict_get_set_same Z.eqb Zeqb_eq).
Qed.

Lemma create_contact_outcome (req : request) (st : registry) :
  create_outcome req st (create_contact req st).
Proof.
  destruct req as [m data]. destruct m.
  2:{ now apply create_preflight. }
  destruct (truthy data) eqn:Ht.
  2:{ unfold create_contact. cbn [method get_json]. rewrite Ht.
      apply create_invalid; [reflexivity | now left]. }
  destruct data as [ |b|n|x|s|xs|d].
  - discriminate Ht.
  - unfold create_contact. cbn [method get_json]. rewrite Ht.
    now apply create_raised_before.
  - unfold create_contact. cbn [method get_json]. rewrite Ht.
    now apply create_raised_before.
  - unfold create_contact. cbn [method get_json]. rewrite Ht.
    now apply create_raised_before.
  - unfold create_contact. cbn [method get_json]. rewrite Ht.
    unfold missing_required, py_in. cbn [negb bind].
    destruct (str_contains "name" s); cbn [negb bind].
    + destruct (str_contains "phone" s); cbn [negb bind].
      * now apply create_raised_after.
      * apply create_invalid; [reflexivity | now right; left].
    + apply create_invalid; [reflexivity | now right; left].
  - unfold create_contact. cbn [method get_json]. rewrite Ht.
    unfold missing_required, py_in. cbn [negb bind].
    destruct (existsb (str_eq_json "name") xs); cbn [negb bind].
    + destruct (existsb (str_eq_json "phone") xs); cbn [negb bind].
      * now apply create_raised_after.
      * apply create_invalid; [reflexivity | now right; left].
    + apply create_invalid; [reflexivity | now right; left].
  - destruct (dict_get String.eqb "name" d) as [name|] eqn:Hname.
    + destruct (dict_get String.eqb "phone" d) as [phone|] eqn:Hphone.
      * rewrite (create_contact_stored st d name phone Hname Hphone).
        now apply create_stored with (d := d).
      * unfold create_contact. cbn [method get_json]. rewrite Ht.
        unfold missing_required, py_in, dict_contains.
        rewrite Hname, Hphone. cbn [negb bind].
        apply create_invalid; [reflexivity|]. right; right.
        unfold has_key, dict_contains. cbn [get_json]. now rewrite Hphone.
    + unfold create_contact. cbn [method get_json]. rewrite Ht.
      unfold missing_required, py_in, dict_contains.
      rewrite Hname. cbn [negb bind].
      apply create_invalid; [reflexivity|]. right; left.
      unfold has_key, dict_contains. cbn [get_json]. now rewrite Hname.
Qed.

Lemma delete_contact_missing (contact_id : Z) (st : registry) :
  dict_get Z.eqb contact_id (contacts_db st) = None ->
  delete_contact contact_id st = (Ok (not_found contact_id), st).
Proof.
  intros Hg. unfold delete_contact, dict_contains. now rewrite Hg.
Qed.

Lemma delete_contact_stored (contact_id : Z) (st : registry)
    (contact : dict string json) :
  dict_get Z.eqb contact_id (contacts_db st) = Some contact ->
  delete_contact contact_id st =
  (Ok (mkResponse
         (jsonify
            [("message",
              JStr ("Contact " ++ str_of_int contact_id
                    ++ " deleted successfully")%string);
             ("deleted_contact", JObj contact)])
         200),
   mkRegistry (dict_remove Z.eqb contact_id (contacts_db st))
     (contact_counter st)).
Proof.
  intros Hg. unfold delete_contact, dict_contains, dict_pop. now rewrite Hg.
Qed.

Lemma get_contact_state (contact_id : Z) (st : registry) :
  snd (get_contact contact_id st) = st.
Proof.
  unfold get_contact.
  destruct (dict_get Z.eqb contact_id (contacts_db st)) as [c|];
    [destruct (negb (truthy (JObj c)))|]; reflexivity.
Qed.

(** ** The invariant is kept by every request *)

Lemma sorted_NoDup (l : list Z) : StronglySorted Z.lt l -> NoDup l.
Proof.
  induction 1 as [|a l Hs IH Hall]; constructor; [|assumption].
  intros Hin. rewrite Forall_forall in Hall.
  specialize (Hall a Hin). lia.
Qed.

Lemma sorted_snoc (l : list Z) (c : Z) :
  StronglySorted Z.lt l -> Forall (fun k => k < c) l ->
  StronglySorted Z.lt (l ++ [c]).
Proof.
  induction 1 as [|a l Hs IH Hall]; intros Hlt; simpl.
  - repeat constructor.
  - inversion Hlt as [|? ? Hac Hlt']; subst.
    constructor; [auto|].
    apply Forall_app. split; [assumption | now constructor].
Qed.

Lemma sorted_remove {V : Type} (k : Z) (d : dict Z V) :
  StronglySorted Z.lt (dict_keys d) ->
  StronglySorted Z.lt (dict_keys (dict_remove Z.eqb k d)).
Proof.
  induction d as [|[k' v'] d IH]; simpl; [auto|].
  intros Hs. inversion Hs as [|? ? Hs' Hall]; subst.
  destruct (k =? k'); simpl; [assumption|].
  constructor; [auto|].
  rewrite Forall_forall in *. intros x Hx.
  apply Hall. now apply (dict_remove_keys_incl Z.eqb k d).
Qed.

Lemma dict_keys_snoc {V : Type} (k : Z) (v : V) (d : dict Z V) :
  dict_keys (d ++ [(k, v)]) = dict_keys d ++ [k].
Proof. unfold dict_keys. now rewrite map_app. Qed.

Lemma counter_not_stored (st : registry) :
  registry_inv st ->
  dict_get Z.eqb (contact_counter st) (contacts_db st) = None.
Proof.
  intros Hinv. apply (dict_get_None Z.eqb Zeqb_eq). intros Hin.
  pose proof (inv_issued st Hinv) as Hall.
  rewrite Forall_forall in Hall. specialize (Hall _ Hin). lia.
Qed.

Lemma fresh_inv : registry_inv fresh.
Proof. constructor; simpl; try constructor; lia. Qed.

Lemma create_contact_inv (req : request) (st : registry) :
  registry_inv st -> registry_inv (snd (create_contact req st)).
Proof.
  intros Hinv. pose proof (counter_not_stored st Hinv) as Hfree.
  destruct (create_contact_outcome req st); cbn [snd]; try assumption.
  - destruct Hinv as [Hs Hi Hc Hw]. constructor; cbn; try assumption; [|lia].
    eapply Forall_impl; [|exact Hi]. cbn. lia.
  - destruct Hinv as [Hs Hi Hc Hw].
    rewrite (dict_set_fresh Z.eqb _ _ _ Hfree).
    constructor; cbn [contacts_db contact_counter].
    + rewrite dict_keys_snoc. apply sorted_snoc; [assumption|].
      eapply Forall_impl; [|exact Hi]. cbn. lia.
    + rewrite dict_keys_snoc. apply Forall_app. split.
      * eapply Forall_impl; [|exact Hi]. cbn. lia.
      * constructor; [lia | constructor].
    + lia.
    + apply Forall_app. split; [assumption|].
      constructor; [|constructor]. cbn [fst snd].
      now exists name, phone, (email_of d).
Qed.

Lemma delete_contact_inv (contact_id : Z) (st : registry) :
  registry_inv st -> registry_inv (snd (delete_contact contact_id st)).
Proof.
  intros Hinv.
  destruct (dict_get Z.eqb contact_id (contacts_db st)) as [c|] eqn:Hg.
  - rewrite (delete_contact_stored _ _ _ Hg). cbn [snd].
    destruct Hinv as [Hs Hi Hc Hw].
    constructor; cbn [contacts_db contact_counter].
    + now apply sorted_remove.
    + rewrite Forall_forall in *. intros x Hx.
      apply Hi. now apply (dict_remove_keys_incl Z.eqb contact_id).
    + assumption.
    + rewrite Forall_forall in *. intros x Hx.
      apply Hw. now apply (dict_remove_incl Z.eqb contact_id).
  - now rewrite (delete_contact_missing _ _ Hg).
Qed.

Lemma step_inv (o : op) (st : registry) :
  registry_inv st -> registry_inv (snd (step o st)).
Proof.
  destruct o as [r|i|i| | ]; cbn [step]; intros Hinv.
  - now apply create_contact_inv.
  - now rewrite get_contact_state.
  - now apply delete_contact_inv.
  - assumption.
  - assumption.
Qed.

Lemma reachable_inv (st : registry) : reachable st -> registry_inv st.
Proof.
  induction 1 as [|o st Hr IH]; [apply fresh_inv | now apply step_inv].
Qed.

Lemma run_snd_cons (o : op) (ops : list op) (st : registry) :
  snd (run (o :: ops) st) = snd (run ops (snd (step o st))).
Proof.
  cbn [run]. destruct (step o st) as [r st1]. cbn [snd].
  now destruct (run ops st1).
Qed.

Lemma run_fst_cons (o : op) (ops : list op) (st : registry) :
  fst (run (o :: ops) st) =
  fst (step o st) :: fst (run ops (snd (step o st))).
Proof.
  cbn [run]. destruct (step o st) as [r st1]. cbn [fst snd].
  now destruct (run ops st1).
Qed.

Lemma run_reachable (ops : list op) (st : registry) :
  reachable st -> reachable (snd (run ops st)).
Proof.
  revert st. induction ops as [|o ops IH]; intros st Hr; [assumption|].
  rewrite run_snd_cons. apply IH. now constructor.
Qed.

Lemma run_snd_snoc (o : op) (ops : list op) (st : registry) :
  snd (run (ops ++ [o]) st) = snd (step o (snd (run ops st))).
Proof.
  revert st. induction ops as [|o' ops IH]; intros st; cbn [app].
  - now rewrite run_snd_cons.
  - now rewrite !run_snd_cons, IH.
Qed.

Lemma reachable_run (st : registry) :
  reachable st -> exists ops, st = snd (run ops fresh).
Proof.
  induction 1 as [|o st Hr [ops ->]].
  - now exists [].
  - exists (ops ++ [o]). now rewrite run_snd_snoc.
Qed.

(** ** Ids along a run *)

Lemma created_id_get (contact_id : Z) (st : registry) :
  created_id (fst (get_contact contact_id st)) = None.
Proof.
  unfold get_contact.
  destruct (dict_get Z.eqb contact_id (contacts_db st)) as [c|];
    [destruct (negb (truthy (JObj c)))|]; reflexivity.
Qed.

Lemma created_id_delete (contact_id : Z) (st : registry) :
  created_id (fst (delete_contact contact_id st)) = None.
Proof.
  destruct (dict_get Z.eqb contact_id (contacts_db st)) as [c|] eqn:Hg.
  - now rewrite (delete_contact_stored _ _ _ Hg).
  - now rewrite (delete_contact_missing _ _ Hg).
Qed.

(** One request either hands out the current counter value and advances
    the counter by one, or hands out nothing; in the second case the
    counter cannot go down, and stays put when the body is a dict or
    absent. *)
Lemma step_created (o : op) (st : registry) :
  match created_id (fst (step o st)) with
  | Some n =>
      n = contact_counter st /\
      contact_counter (snd (step o st)) = contact_counter st + 1
  | None =>
      contact_counter st <= contact_counter (snd (step o st)) /\
      (object_payload o = true ->
       contact_counter (snd (step o st)) = contact_counter st)
  end.
Proof.
  destruct o as [r|i|i| | ]; cbn [step object_payload].
  - destruct (create_contact_outcome r st) as [Hm|msg Hm Hv|e Hm Hobj|e Hm Hobj|d name phone Hm Hd Hn Hp];
      cbn; split; solve [lia | congruence].
  - rewrite created_id_get, get_contact_state. split; [lia | reflexivity].
  - rewrite created_id_delete.
    destruct (dict_get Z.eqb i (contacts_db st)) as [c|] eqn:Hg.
    + rewrite (delete_contact_stored _ _ _ Hg). cbn. split; [lia | reflexivity].
    + rewrite (delete_contact_missing _ _ Hg). cbn. split; [lia | reflexivity].
  - cbn. split; [lia | reflexivity].
  - cbn. split; [lia | reflexivity].
Qed.

Lemma dict_set_keys_In {V : Type} (k c : Z) (v : V) (d : dict Z V) :
  In k (dict_keys (dict_set Z.eqb c v d)) -> k = c \/ In k (dict_keys d).
Proof.
  intros Hin. destruct (Z.eq_dec k c) as [->|Hne]; [now left | right].
  destruct (dict_get Z.eqb k d) as [x|] eqn:Hg.
  - apply (dict_get_In Z.eqb Zeqb_eq) in Hg.
    change k with (fst (k, x)). now apply in_map.
  - exfalso. revert Hin. apply (dict_get_None Z.eqb Zeqb_eq).
    rewrite (dict_get_set_other Z.eqb Zeqb_eq); [assumption | congruence].
Qed.

(** A request stores no id but the one it hands out. *)
Lemma step_keys (o : op) (st : registry) (k : Z) :
  In k (dict_keys (contacts_db (snd (step o st)))) ->
  In k (dict_keys (contacts_db st)) \/ created_id (fst (step o st)) = Some k.
Proof.
  destruct o as [r|i|i| | ]; cbn [step].
  - destruct (create_contact_outcome r st); cbn [snd fst contacts_db]; auto.
    intros Hin. apply dict_set_keys_In in Hin as [->|Hin]; auto.
  - rewrite get_contact_state. auto.
  - destruct (dict_get Z.eqb i (contacts_db st)) as [c|] eqn:Hg.
    + rewrite (delete_contact_stored _ _ _ Hg). cbn [snd contacts_db].
      intros Hin. left. now apply (dict_remove_keys_incl Z.eqb i).
    + rewrite (delete_contact_missing _ _ Hg). auto.
  - auto.
  - auto.
Qed.

Lemma run_keys (ops : list op) (st : registry) (k : Z) :
  In k (dict_keys (contacts_db (snd (run ops st)))) ->
  In k (dict_keys (contacts_db st)) \/ In k (created_ids (fst (run ops st))).
Proof.
  revert st. induction ops as [|o ops IH]; intros st; [now left|].
  rewrite run_snd_cons, run_fst_cons. cbn [created_ids].
  intros Hin. apply IH in Hin as [Hin|Hin].
  - apply step_keys in Hin as [Hin|Hin]; [now left|].
    rewrite Hin. right. now left.
  - right. destruct (created_id (fst (step o st))); [now right | assumption].
Qed.

Lemma seq_from (c : Z) (m : nat) :
  map (fun i => c + Z.of_nat i) (seq 0 (S m)) =
  c :: map (fun i => c + 1 + Z.of_nat i) (seq 0 m).
Proof.
  cbn [seq map]. f_equal; [lia|].
  rewrite <- seq_shift, map_map. apply map_ext. intros i. lia.
Qed.

(** With dict (or absent) bodies only, the ids handed out are consecutive
    from the counter's starting value. *)
Lemma run_ids_consecutive (ops : list op) :
  forallb object_payload ops = true ->
  forall st,
    created_ids (fst (run ops st)) =
    map (fun i => contact_counter st + Z.of_nat i)
      (seq 0 (List.length (created_ids (fst (run ops st))))) /\
    contact_counter (snd (run ops st)) =
    contact_counter st +
    Z.of_nat (List.length (created_ids (fst (run ops st)))).
Proof.
  induction ops as [|o ops IH]; intros Hobj st.
  - cbn. split; [reflexivity | lia].
  - cbn [forallb] in Hobj. apply andb_true_iff in Hobj as [Ho Hobj].
    rewrite run_snd_cons, run_fst_cons. cbn [created_ids].
    pose proof (step_created o st) as Hstep.
    destruct (IH Hobj (snd (step o st))) as [Hids Hcnt].
    destruct (created_id (fst (step o st))) as [n|].
    + destruct Hstep as [-> Hnext]. cbn [List.length].
      rewrite seq_from, <- Hnext, <- Hids. split; [reflexivity|lia].
    + destruct Hstep as [_ Hsame]. rewrite (Hsame Ho) in *. now split.
Qed.

(** Whatever the bodies, the ids handed out grow strictly and lie between
    the counter's value before and after the run. *)
Lemma run_ids_increasing (ops : list op) (st : registry) :
  StronglySorted Z.lt (created_ids (fst (run ops st))) /\
  Forall (fun n => contact_counter st <= n < contact_counter (snd (run ops st)))
    (created_ids (fst (run ops st))) /\
  contact_counter st <= contact_counter (snd (run ops st)).
Proof.
  revert st. induction ops as [|o ops IH]; intros st.
  - cbn. repeat split; try constructor. lia.
  - rewrite run_snd_cons, run_fst_cons. cbn [created_ids].
    pose proof (step_created o st) as Hstep.
    destruct (IH (snd (step o st))) as (Hs & Hall & Hle).
    destruct (created_id (fst (step o st))) as [n|].
    + destruct Hstep as [-> Hnext]. rewrite Hnext in *.
      repeat split; [constructor; [assumption|] | constructor | lia].
      * eapply Forall_impl; [|exact Hall]. cbn. lia.
      * lia.
      * eapply Forall_impl; [|exact Hall]. cbn. lia.
    + destruct Hstep as [Hmono _].
      repeat split; [assumption | | lia].
      eapply Forall_impl; [|exact Hall]. cbn. lia.
Qed.

(** ** Get on a stored and on a missing id *)

Lemma dict_contains_get {V : Type} (k : string) (d : dict string V) :
  dict_contains String.eqb k d = true ->
  exists v, dict_get String.eqb k d = Some v.
Proof.
  unfold dict_contains. destruct (dict_get String.eqb k d) as [v|];
    [now exists v | discriminate].
Qed.

Lemma stored_contact_truthy (st : registry) (k : Z)
    (contact : dict string json) :
  registry_inv st ->
  dict_get Z.eqb k (contacts_db st) = Some contact ->
  well_formed_contact k contact.
Proof.
  intros Hinv Hg. apply (dict_get_In Z.eqb Zeqb_eq) in Hg.
  pose proof (inv_contacts st Hinv) as Hall.
  rewrite Forall_forall in Hall. exact (Hall _ Hg).
Qed.

Lemma get_contact_stored (st : registry) (k : Z)
    (contact : dict string json) :
  registry_inv st ->
  dict_get Z.eqb k (contacts_db st) = Some contact ->
  get_contact k st = (Ok (mkResponse (jsonify contact) 200), st).
Proof.
  intros Hinv Hg.
  destruct (stored_contact_truthy st k contact Hinv Hg)
    as (name & phone & email & ->).
  unfold get_contact. now rewrite Hg.
Qed.

Lemma get_contact_missing (st : registry) (k : Z) :
  dict_get Z.eqb k (contacts_db st) = None ->
  get_contact k st = (Ok (not_found k), st).
Proof. intros Hg. unfold get_contact. now rewrite Hg. Qed.

(** ** Create *)

(** C1: for every payload that is a dict holding both the [name] and the
    [phone] key, Create answers 201 with a record, and Get with the id read
    from that answer returns the very same record (same id, name, phone and
    email), whatever the registry held before. *)
Theorem create_then_get (st : registry) (d : dict string json) :
  dict_contains String.eqb "name" d = true ->
  dict_contains String.eqb "phone" d = true ->
  exists resp st' contact_id,
    create_contact (mkRequest POST (JObj d)) st = (Ok resp, st') /\
    status resp = 201 /\
    json_int (json_field "id" (body resp)) = Some contact_id /\
    get_contact contact_id st' = (Ok (mkResponse (body resp) 200), st').
Proof.
  intros Hn Hp.
  apply dict_contains_get in Hn as [name Hn].
  apply dict_contains_get in Hp as [phone Hp].
  rewrite (create_contact_stored st d name phone Hn Hp).
  eexists _, _, (contact_counter st).
  split; [reflexivity|]. split; [reflexivity|]. split; [reflexivity|].
  unfold get_contact. cbn [contacts_db body].
  now rewrite (dict_get_set_same Z.eqb Zeqb_eq).
Qed.

Lemma create_then_get_witness :
  exists resp st' contact_id,
    create_contact (mkRequest POST ivan_body) fresh = (Ok resp, st') /\
    status resp = 201 /\
    json_int (json_field "id" (body resp)) = Some contact_id /\
    get_contact contact_id st' = (Ok (mkResponse (body resp) 200), st').
Proof.
  apply (create_then_get fresh
           [("name", JStr "Ivan Ivanov"); ("phone", JStr "+7 999 123-45-67")]);
    reflexivity.
Defined.

(** C7: a Create whose payload holds [name] and [phone] takes the current
    counter value as id, advances the counter by one, stores under that id
    a record with exactly the fields id, name, phone, email (leaving every
    other id alone; in a reachable registry the id is new and the record
    goes last) and answers 201 with that record; without an [email] key the
    stored email is the empty string. *)
Theorem create_contact_stores (st : registry) (d : dict string json)
    (name phone : json) :
  dict_get String.eqb "name" d = Some name ->
  dict_get String.eqb "phone" d = Some phone ->
  let contact_id := contact_counter st in
  let contact :=
    [("id", JInt contact_id); ("name", name); ("phone", phone);
     ("email", email_of d)] in
  let st' := snd (create_contact (mkRequest POST (JObj d)) st) in
  fst (create_contact (mkRequest POST (JObj d)) st) =
    Ok (mkResponse (JObj contact) 201) /\
  contact_counter st' = contact_counter st + 1 /\
  dict_get Z.eqb contact_id (contacts_db st') = Some contact /\
  (forall k, k <> contact_id ->
     dict_get Z.eqb k (contacts_db st') = dict_get Z.eqb k (contacts_db st)) /\
  (dict_contains String.eqb "email" d = false ->
     dict_get String.eqb "email" contact = Some (JStr "")) /\
  (reachable st ->
     contacts_db st' = contacts_db st ++ [(contact_id, contact)]).
Proof.
  intros Hn Hp contact_id contact st'. subst st'.
  rewrite (create_contact_stored st d name phone Hn Hp).
  cbn [fst snd contacts_db contact_counter]. fold contact_id.
  change (contact_of contact_id name phone (email_of d)) with contact.
  split; [reflexivity|]. split; [reflexivity|].
  split; [apply (dict_get_set_same Z.eqb Zeqb_eq)|].
  split.
  { intros k Hk. apply (dict_get_set_other Z.eqb Zeqb_eq). congruence. }
  split.
  { unfold dict_contains, contact, email_of.
    destruct (dict_get String.eqb "email" d); [discriminate | reflexivity]. }
  intros Hr. apply (dict_set_fresh Z.eqb).
  apply counter_not_stored. now apply reachable_inv.
Qed.

Lemma create_contact_stores_witness :
  fst (create_contact (mkRequest POST ivan_body) fresh) =
    Ok (mkResponse (JObj ivan_record) 201) /\
  snd (create_contact (mkRequest POST ivan_body) fresh) =
    mkRegistry [(1, ivan_record)] 2.
Proof.
  pose proof (create_contact_stores fresh
                [("name", JStr "Ivan Ivanov");
                 ("phone", JStr "+7 999 123-45-67")]
                (JStr "Ivan Ivanov") (JStr "+7 999 123-45-67")
                eq_refl eq_refl) as H.
  split; [exact (proj1 H) | reflexivity].
Defined.

(** X3: Create answers 201 only to a POST whose body is a dict holding
    both required keys. *)
Lemma create_contact_201_inv (req : request) (st : registry) :
  has_status 201 (fst (create_contact req st)) = true ->
  exists d name phone,
    method req = POST /\ get_json req = JObj d /\
    dict_get String.eqb "name" d = Some name /\
    dict_get String.eqb "phone" d = Some phone.
Proof.
  destruct (create_contact_outcome req st)
    as [Hm|msg Hm Hv|e Hm Hno|e Hm Hno|d name phone Hm Hd Hn Hp];
    cbn; try discriminate.
  intros _. now exists d, name, phone.
Qed.

(** X1: every 400 answer of Create, whatever the body, leaves the counter
    and the mapping as they were. *)
Lemma create_contact_400_state (req : request) (st : registry) :
  has_status 400 (fst (create_contact req st)) = true ->
  snd (create_contact req st) = st.
Proof.
  destruct (create_contact_outcome req st); cbn; congruence.
Qed.


(** C3: on the JSON array [["name", "phone"]] neither key is present in the
    payload, yet Create does not answer 400: both membership tests pass on
    the array's elements, the counter goes from 1 to 2, and the subscript
    [data['name']] raises [TypeError]. *)
Theorem create_contact_list_body :
  has_key "name" list_body = false /\
  has_key "phone" list_body = false /\
  create_contact (mkRequest POST list_body) fresh =
    (Raise TypeError, mkRegistry [] 2).
Proof. repeat split. Qed.

(** C2: a Create whose body is that array fails after it has used up id 1,
    so the first Create that succeeds on the same registry receives id 2
    and the ids handed out are not 1, ..., n. *)
Theorem created_ids_after_failed_create :
  let ops := [OpCreate (mkRequest POST list_body);
              OpCreate (mkRequest POST anna_body)] in
  fst (run ops fresh) =
    [Raise TypeError; Ok (mkResponse (JObj anna_record) 201)] /\
  created_ids (fst (run ops fresh)) = [2] /\
  created_ids (fst (run ops fresh)) <>
    ids_upto (List.length (created_ids (fst (run ops fresh)))).
Proof. repeat split. discriminate. Qed.

(** X4: with dict or absent bodies throughout, the Creates that succeed
    from a fresh registry receive 1, 2, ..., n in that order. *)
Lemma created_ids_object_payloads (ops : list op) :
  forallb object_payload ops = true ->
  created_ids (fst (run ops fresh)) =
  ids_upto (List.length (created_ids (fst (run ops fresh)))).
Proof.
  intros Hobj. destruct (run_ids_consecutive ops Hobj fresh) as [Hids _].
  rewrite Hids at 1. unfold ids_upto.
  rewrite <- seq_shift, map_map. apply map_ext. intros i.
  unfold fresh. cbn [contact_counter]. lia.
Qed.

(** X5: whatever the bodies, ids handed out from a fresh registry are at
    least 1 and strictly increasing, so none is handed out twice, deleted
    or not. *)
Lemma created_ids_increasing (ops : list op) :
  StronglySorted Z.lt (created_ids (fst (run ops fresh))) /\
  Forall (fun n => 1 <= n) (created_ids (fst (run ops fresh))) /\
  NoDup (created_ids (fst (run ops fresh))).
Proof.
  destruct (run_ids_increasing ops fresh) as (Hs & Hall & _).
  split; [assumption|]. split; [|now apply sorted_NoDup].
  eapply Forall_impl; [|exact Hall]. cbn. lia.
Qed.

(** ** Delete *)

(** C4: in a reachable registry, Delete of a stored id answers 200 with the
    whole removed record, takes exactly that entry out of the mapping (the
    others keep their values and their order, the counter is untouched),
    after which Get of that id answers 404 and List's count is one less;
    Delete of an id that is not stored answers 404 and changes nothing. *)
Theorem delete_contact_spec (st : registry) (contact_id : Z) :
  reachable st ->
  match dict_get Z.eqb contact_id (contacts_db st) with
  | Some contact =>
      exists msg st',
        delete_contact contact_id st =
          (Ok (mkResponse
                 (jsonify [("message", JStr msg);
                           ("deleted_contact", JObj contact)]) 200), st') /\
        contact_counter st' = contact_counter st /\
        contacts_db st' =
          filter (fun p => negb (contact_id =? fst p)) (contacts_db st) /\
        dict_get Z.eqb contact_id (contacts_db st') = None /\
        (forall k, k <> contact_id ->
           dict_get Z.eqb k (contacts_db st') =
           dict_get Z.eqb k (contacts_db st)) /\
        get_contact contact_id st' = (Ok (not_found contact_id), st') /\
        status (not_found contact_id) = 404 /\
        response_count (fst (get_all_contacts st')) =
          Some (dict_len (contacts_db st) - 1) /\
        response_count (fst (get_all_contacts st)) =
          Some (dict_len (contacts_db st))
  | None =>
      delete_contact contact_id st = (Ok (not_found contact_id), st) /\
      status (not_found contact_id) = 404
  end.
Proof.
  intros Hr. pose proof (reachable_inv st Hr) as Hinv.
  pose proof (sorted_NoDup _ (inv_sorted st Hinv)) as Hnd.
  destruct (dict_get Z.eqb contact_id (contacts_db st)) as [contact|] eqn:Hg.
  - rewrite (delete_contact_stored _ _ _ Hg).
    eexists _, _. split; [reflexivity|].
    cbn [contacts_db contact_counter].
    assert (Hgone :
      dict_get Z.eqb contact_id
        (dict_remove Z.eqb contact_id (contacts_db st)) = None)
      by now apply (dict_get_remove_same Z.eqb Zeqb_eq).
    split; [reflexivity|].
    split; [now apply (dict_remove_filter Z.eqb Zeqb_eq)|].
    split; [assumption|].
    split.
    { intros k Hk. apply (dict_get_remove_other Z.eqb Zeqb_eq). congruence. }
    split; [now apply get_contact_missing|].
    split; [reflexivity|].
    split; [|reflexivity].
    cbn. f_equal. now apply (dict_len_remove Z.eqb _ contact).
  - split; [now apply delete_contact_missing | reflexivity].
Qed.

Lemma delete_contact_spec_witness :
  reachable (snd (step (OpCreate (mkRequest POST ivan_body)) fresh)) /\
  exists msg st',
    delete_contact 1 (snd (step (OpCreate (mkRequest POST ivan_body)) fresh)) =
      (Ok (mkResponse
             (jsonify [("message", JStr msg);
                       ("deleted_contact", JObj ivan_record)]) 200), st') /\
    dict_get Z.eqb 1 (contacts_db st') = None /\
    get_contact 1 st' = (Ok (not_found 1), st').
Proof.
  split; [exact (reachable_step _ _ reachable_fresh)|].
  destruct (delete_contact_spec
              (snd (step (OpCreate (mkRequest POST ivan_body)) fresh)) 1
              (reachable_step _ _ reachable_fresh))
    as (msg & st' & Hdel & _ & _ & Hgone & _ & Hget & _).
  exists msg, st'. repeat split; assumption.
Defined.

(** ** Get *)

(** C5: after any run from the fresh registry and for every non-negative
    id, Get answers 404 exactly when no contact is stored under the id, and
    answers 200 with the stored contact otherwise; an id that no Create of
    the run handed out makes both Get and Delete answer 404. *)
Theorem get_contact_spec (ops : list op) (contact_id : Z) :
  0 <= contact_id ->
  let st := snd (run ops fresh) in
  (has_status 404 (fst (get_contact contact_id st)) = true <->
   dict_get Z.eqb contact_id (contacts_db st) = None) /\
  (dict_get Z.eqb contact_id (contacts_db st) = None ->
   get_contact contact_id st = (Ok (not_found contact_id), st)) /\
  (forall contact,
     dict_get Z.eqb contact_id (contacts_db st) = Some contact ->
     get_contact contact_id st = (Ok (mkResponse (jsonify contact) 200), st)) /\
  (~ In contact_id (created_ids (fst (run ops fresh))) ->
   get_contact contact_id st = (Ok (not_found contact_id), st) /\
   delete_contact contact_id st = (Ok (not_found contact_id), st)).
Proof.
  intros _ st.
  assert (Hinv : registry_inv st)
    by (apply reachable_inv, run_reachable, reachable_fresh).
  split; [|split; [|split]].
  - destruct (dict_get Z.eqb contact_id (contacts_db st)) as [c|] eqn:Hg.
    + rewrite (get_contact_stored st contact_id c Hinv Hg). cbn.
      split; discriminate.
    + rewrite (get_contact_missing st contact_id Hg). cbn. tauto.
  - apply get_contact_missing.
  - intros contact Hg. now apply get_contact_stored.
  - intros Hnew.
    assert (Hg : dict_get Z.eqb contact_id (contacts_db st) = None).
    { apply (dict_get_None Z.eqb Zeqb_eq). intros Hin.
      apply run_keys in Hin as [Hin|Hin]; [exact Hin | exact (Hnew Hin)]. }
    split; [now apply get_contact_missing | now apply delete_contact_missing].
Qed.

Lemma get_contact_spec_witness :
  0 <= 2 /\
  get_contact 2
    (snd (run [OpCreate (mkRequest POST ivan_body);
               OpCreate (mkRequest POST anna_body); OpDelete 1] fresh)) =
  (Ok (mkResponse (jsonify anna_record) 200),
   mkRegistry [(2, anna_record)] 3).
Proof.
  split; [lia|].
  exact (proj1 (proj2 (proj2
           (get_contact_spec
              [OpCreate (mkRequest POST ivan_body);
               OpCreate (mkRequest POST anna_body); OpDelete 1] 2
              ltac:(lia))))
           anna_record eq_refl).
Defined.

(** ** List and health *)

(** C6: after any run from the fresh registry, List answers 200 with every
    stored contact in the order of the mapping, which is the order of
    insertion and hence of ascending id, together with a count equal to
    the length of that sequence. *)
Theorem get_all_contacts_spec (ops : list op) :
  let st := snd (run ops fresh) in
  let contacts := map JObj (dict_values (contacts_db st)) in
  get_all_contacts st =
    (Ok (mkResponse
           (jsonify [("contacts", JArr contacts);
                     ("count", JInt (Z.of_nat (List.length contacts)))])
           200), st) /\
  map (fun c => json_int (json_field "id" c)) contacts =
    map Some (dict_keys (contacts_db st)) /\
  StronglySorted Z.lt (dict_keys (contacts_db st)).
Proof.
  intros st contacts.
  assert (Hinv : registry_inv st)
    by (apply reachable_inv, run_reachable, reachable_fresh).
  split; [|split].
  - unfold get_all_contacts, contacts, dict_len, dict_values.
    now rewrite !length_map.
  - unfold contacts, dict_values, dict_keys. rewrite !map_map.
    pose proof (inv_contacts st Hinv) as Hall.
    induction (contacts_db st) as [|[k c] db IH]; [reflexivity|].
    inversion Hall as [|? ? (name & phone & email & Hc) Hall']; subst.
    cbn [map fst snd] in *. rewrite Hc, (IH Hall'). reflexivity.
  - exact (inv_sorted st Hinv).
Qed.

(** C8: the scenario.  Create Ivan on a fresh registry: id 1, empty email.
    Create Anna: id 2.  Delete 1: the Ivan record comes back.  List: count
    1, Anna's record with id 2 alone. *)
Theorem scenario :
  run [OpCreate (mkRequest POST ivan_body);
       OpCreate (mkRequest POST anna_body);
       OpDelete 1;
       OpList] fresh =
  ([Ok (mkResponse (JObj ivan_record) 201);
    Ok (mkResponse (JObj anna_record) 201);
    Ok (mkResponse
          (JObj [("message", JStr "Contact 1 deleted successfully");
                 ("deleted_contact", JObj ivan_record)]) 200);
    Ok (mkResponse
          (JObj [("contacts", JArr [JObj anna_record]); ("count", JInt 1)])
          200)],
   mkRegistry [(2, anna_record)] 3).
Proof. reflexivity. Qed.

(** C9: in every reachable registry each stored record carries its own
    mapping key in its [id] field and has the four keys id, name, phone and
    email, so it is never the empty dict. *)
Theorem stored_contact_shape (st : registry) (k : Z)
    (contact : dict string json) :
  reachable st ->
  In (k, contact) (contacts_db st) ->
  dict_get String.eqb "id" contact = Some (JInt k) /\
  dict_keys contact = ["id"; "name"; "phone"; "email"] /\
  dict_contains String.eqb "id" contact = true /\
  dict_contains String.eqb "name" contact = true /\
  dict_contains String.eqb "phone" contact = true /\
  dict_contains String.eqb "email" contact = true /\
  contact <> [].
Proof.
  intros Hr Hin. pose proof (inv_contacts st (reachable_inv st Hr)) as Hall.
  rewrite Forall_forall in Hall.
  destruct (Hall _ Hin) as (name & phone & email & Hc).
  cbn [fst snd] in Hc. subst contact.
  repeat split. discriminate.
Qed.

Lemma stored_contact_shape_witness :
  reachable (snd (step (OpCreate (mkRequest POST ivan_body)) fresh)) /\
  In (1, ivan_record)
    (contacts_db (snd (step (OpCreate (mkRequest POST ivan_body)) fresh))) /\
  dict_get String.eqb "id" ivan_record = Some (JInt 1).
Proof.
  split; [exact (reachable_step _ _ reachable_fresh)|].
  split; [now left|].
  exact (proj1 (stored_contact_shape
                  (snd (step (OpCreate (mkRequest POST ivan_body)) fresh))
                  1 ivan_record
                  (reachable_step _ _ reachable_fresh)
                  (or_introl eq_refl))).
Defined.

(** C10: the health operation answers 200 in every state, never raises,
    leaves the registry alone, and its [contacts_count] is the number of
    stored contacts, the same number List reports as [count]. *)
Theorem health_check_spec (st : registry) :
  exists resp,
    health_check st = (Ok resp, st) /\
    status resp = 200 /\
    json_int (json_field "contacts_count" (body resp)) =
      Some (Z.of_nat (List.length (contacts_db st))) /\
    response_count (fst (get_all_contacts st)) =
      json_int (json_field "contacts_count" (body resp)).
Proof.
  eexists. split; [reflexivity|]. repeat split.
Qed.

(** ** Further properties of the handlers *)

Lemma stored_key_In (k : Z) (c : dict string json)
    (db : dict Z (dict string json)) :
  dict_get Z.eqb k db = Some c -> In k (dict_keys db).
Proof.
  intros Hg. apply (dict_get_In Z.eqb Zeqb_eq) in Hg.
  change k with (fst (k, c)). now apply in_map.
Qed.

Lemma stored_key_bound (st : registry) (k : Z) :
  registry_inv st -> In k (dict_keys (contacts_db st)) ->
  1 <= k < contact_counter st.
Proof.
  intros Hinv Hin. pose proof (inv_issued st Hinv) as Hall.
  rewrite Forall_forall in Hall. now apply Hall.
Qed.

Lemma dict_remove_snoc {V : Type} (k : Z) (v : V) (d : dict Z V) :
  dict_get Z.eqb k d = None -> dict_remove Z.eqb k (d ++ [(k, v)]) = d.
Proof.
  induction d as [|[k' v'] d IH]; cbn [app dict_remove dict_get].
  - now rewrite Z.eqb_refl.
  - destruct (k =? k'); [discriminate|]. intros Hg. now rewrite IH.
Qed.

(** An id below the counter that is not stored stays out of the mapping
    whatever requests follow. *)
Lemma retired_id_stays_out (ops : list op) (st : registry) (k : Z) :
  dict_get Z.eqb k (contacts_db st) = None ->
  k < contact_counter st ->
  dict_get Z.eqb k (contacts_db (snd (run ops st))) = None.
Proof.
  intros Hg Hlt. apply (dict_get_None Z.eqb Zeqb_eq). intros Hin.
  apply run_keys in Hin as [Hin|Hin].
  - revert Hin. now apply (dict_get_None Z.eqb Zeqb_eq).
  - destruct (run_ids_increasing ops st) as (_ & Hall & _).
    rewrite Forall_forall in Hall. specialize (Hall _ Hin). lia.
Qed.

(** A request other than Delete of [k] leaves what is stored under [k]. *)
Lemma step_lookup (o : op) (st : registry) (k : Z) (c : dict string json) :
  registry_inv st ->
  dict_get Z.eqb k (contacts_db st) = Some c ->
  deletes k [o] = false ->
  dict_get Z.eqb k (contacts_db (snd (step o st))) = Some c.
Proof.
  intros Hinv Hg Hnd.
  pose proof (stored_key_bound st k Hinv (stored_key_In _ _ _ Hg)) as Hk.
  destruct o as [r|i|i| | ]; cbn [step].
  - destruct (create_contact_outcome r st); cbn [snd contacts_db];
      try assumption.
    rewrite (dict_get_set_other Z.eqb Zeqb_eq); [assumption | lia].
  - now rewrite get_contact_state.
  - cbn in Hnd. rewrite orb_false_r in Hnd. apply Z.eqb_neq in Hnd.
    destruct (dict_get Z.eqb i (contacts_db st)) as [c'|] eqn:Hi.
    + rewrite (delete_contact_stored _ _ _ Hi). cbn [snd contacts_db].
      now rewrite (dict_get_remove_other Z.eqb Zeqb_eq).
    + now rewrite (delete_contact_missing _ _ Hi).
  - assumption.
  - assumption.
Qed.

(** How one request moves [len(contacts_db)]. *)
Lemma step_len (o : op) (st : registry) :
  registry_inv st ->
  dict_len (contacts_db (snd (step o st))) =
  dict_len (contacts_db st)
  + (match created_id (fst (step o st)) with Some _ => 1 | None => 0 end)
  - (if is_delete_ok (o, fst (step o st)) then 1 else 0).
Proof.
  intros Hinv. pose proof (counter_not_stored st Hinv) as Hfree.
  destruct o as [r|i|i| | ]; cbn [step is_delete_ok fst snd].
  - destruct (create_contact_outcome r st); cbn [fst snd contacts_db];
      try (cbn; lia).
    rewrite (dict_set_fresh Z.eqb _ _ _ Hfree). unfold dict_len.
    rewrite length_app. cbn. lia.
  - rewrite created_id_get, get_contact_state. lia.
  - rewrite created_id_delete.
    destruct (dict_get Z.eqb i (contacts_db st)) as [c|] eqn:Hi.
    + rewrite (delete_contact_stored _ _ _ Hi). cbn [fst snd contacts_db].
      rewrite (dict_len_remove Z.eqb i c _ Hi). cbn. lia.
    + rewrite (delete_contact_missing _ _ Hi). cbn. lia.
  - cbn. lia.
  - cbn. lia.
Qed.

Lemma run_len (ops : list op) (st : registry) :
  registry_inv st ->
  dict_len (contacts_db (snd (run ops st))) =
  dict_len (contacts_db st)
  + Z.of_nat (List.length (created_ids (fst (run ops st))))
  - Z.of_nat (successful_deletes ops (fst (run ops st))).
Proof.
  revert st. induction ops as [|o ops IH]; intros st Hinv.
  - cbn. lia.
  - rewrite run_snd_cons, run_fst_cons, (IH _ (step_inv o st Hinv)).
    rewrite (step_len o st Hinv).
    unfold successful_deletes. cbn [combine filter created_ids].
    destruct (created_id (fst (step o st)));
      destruct (is_delete_ok (o, fst (step o st)));
      cbn [List.length]; lia.
Qed.


Lemma create_contact_400_state_witness :
  snd (create_contact (mkRequest POST (JObj [("name", JStr "Anna")])) fresh)
  = fresh.
Proof.
  apply (create_contact_400_state
           (mkRequest POST (JObj [("name", JStr "Anna")])) fresh).
  reflexivity.
Defined.


Lemma create_contact_201_inv_witness :
  exists d name phone,
    method (mkRequest POST anna_body) = POST /\
    get_json (mkRequest POST anna_body) = JObj d /\
    dict_get String.eqb "name" d = Some name /\
    dict_get String.eqb "phone" d = Some phone.
Proof.
  apply (create_contact_201_inv (mkRequest POST anna_body) fresh).
  reflexivity.
Defined.

Lemma created_ids_object_payloads_witness :
  created_ids
    (fst (run [OpCreate (mkRequest POST ivan_body);
               OpCreate (mkRequest POST JNull);
               OpDelete 1;
               OpCreate (mkRequest POST anna_body)] fresh)) =
  ids_upto
    (List.length
       (created_ids
          (fst (run [OpCreate (mkRequest POST ivan_body);
                     OpCreate (mkRequest POST JNull);
                     OpDelete 1;
                     OpCreate (mkRequest POST anna_body)] fresh)))).
Proof.
  apply (created_ids_object_payloads
           [OpCreate (mkRequest POST ivan_body);
            OpCreate (mkRequest POST JNull);
            OpDelete 1;
            OpCreate (mkRequest POST anna_body)]).
  reflexivity.
Defined.

(** X6: a request lets an exception escape only when it is a POST to Create
    with a truthy body that is not a dict; the exception is then a
    [TypeError], the mapping is untouched, and the counter is either
    untouched or already advanced by one. *)
Theorem request_raise_inv (o : op) (st : registry) (e : exn) :
  fst (step o st) = Raise e ->
  exists r,
    o = OpCreate r /\ method r = POST /\
    object_or_absent (get_json r) = false /\
    truthy (get_json r) = true /\
    e = TypeError /\
    (snd (step o st) = st \/
     snd (step o st) = mkRegistry (contacts_db st) (contact_counter st + 1)).
Proof.
  destruct o as [[m data]|i|i| | ]; cbn [step].
  - intros Hr. exists (mkRequest m data).
    destruct m; [|discriminate Hr].
    destruct data as [ |b|n|x|s|xs|d].
    + discriminate Hr.
    + destruct b; [|discriminate Hr].
      injection Hr as <-. repeat split. now left.
    + unfold create_contact in *. cbn [method get_json] in *.
      destruct (truthy (JInt n)) eqn:Ht; [|discriminate Hr].
      injection Hr as <-. repeat split. now left.
    + unfold create_contact in *. cbn [method get_json] in *.
      destruct (truthy (JFloat x)) eqn:Ht; [|discriminate Hr].
      injection Hr as <-. repeat split. now left.
    + unfold create_contact in *. cbn [method get_json] in *.
      destruct (truthy (JStr s)) eqn:Ht; [|discriminate Hr].
      cbn [negb] in *. unfold missing_required, py_in in *.
      cbn [bind negb] in *.
      destruct (str_contains "name" s); cbn [negb bind] in *;
        [|discriminate Hr].
      destruct (str_contains "phone" s); cbn [negb bind] in *;
        [|discriminate Hr].
      injection Hr as <-. repeat split. now right.
    + unfold create_contact in *. cbn [method get_json] in *.
      destruct (truthy (JArr xs)) eqn:Ht; [|discriminate Hr].
      cbn [negb] in *. unfold missing_required, py_in in *.
      cbn [bind negb] in *.
      destruct (existsb (str_eq_json "name") xs); cbn [negb bind] in *;
        [|discriminate Hr].
      destruct (existsb (str_eq_json "phone") xs); cbn [negb bind] in *;
        [|discriminate Hr].
      injection Hr as <-. repeat split. now right.
    + exfalso. revert Hr.
      destruct (create_contact_outcome (mkRequest POST (JObj d)) st);
        cbn [fst get_json] in *; discriminate.
  - intros Hr. exfalso. revert Hr. unfold get_contact.
    destruct (dict_get Z.eqb i (contacts_db st)) as [c|];
      [destruct (negb (truthy (JObj c)))|]; discriminate.
  - intros Hr. exfalso. revert Hr.
    destruct (dict_get Z.eqb i (contacts_db st)) as [c|] eqn:Hi.
    + now rewrite (delete_contact_stored _ _ _ Hi).
    + now rewrite (delete_contact_missing _ _ Hi).
  - discriminate.
  - discriminate.
Qed.

Lemma request_raise_inv_witness :
  exists r,
    OpCreate (mkRequest POST (JStr "name, phone")) = OpCreate r /\
    method r = POST /\
    object_or_absent (get_json r) = false /\
    truthy (get_json r) = true /\
    TypeError = TypeError /\
    (snd (step (OpCreate (mkRequest POST (JStr "name, phone"))) fresh) = fresh
     \/ snd (step (OpCreate (mkRequest POST (JStr "name, phone"))) fresh) =
        mkRegistry (contacts_db fresh) (contact_counter fresh + 1)).
Proof.
  apply (request_raise_inv
           (OpCreate (mkRequest POST (JStr "name, phone"))) fresh TypeError).
  reflexivity.
Defined.



(** X8: once Delete has removed a stored id from a reachable registry, no
    later request brings it back: after any further run the id is absent
    from the mapping and Get answers 404. *)
Theorem deleted_id_never_returns (st : registry) (k : Z) (ops : list op) :
  reachable st ->
  dict_contains Z.eqb k (contacts_db st) = true ->
  let st' := snd (run ops (snd (delete_contact k st))) in
  dict_get Z.eqb k (contacts_db st') = None /\
  get_contact k st' = (Ok (not_found k), st').
Proof.
  intros Hr Hc st'. pose proof (reachable_inv st Hr) as Hinv.
  assert (Hg : dict_get Z.eqb k (contacts_db st') = None).
  { unfold st'. unfold dict_contains in Hc.
    destruct (dict_get Z.eqb k (contacts_db st)) as [c|] eqn:Hk;
      [|discriminate Hc].
    pose proof (stored_key_bound st k Hinv (stored_key_In _ _ _ Hk)) as Hb.
    rewrite (delete_contact_stored _ _ _ Hk). cbn [snd].
    apply retired_id_stays_out; cbn [contacts_db contact_counter]; [|lia].
    apply (dict_get_remove_same Z.eqb Zeqb_eq).
    apply sorted_NoDup, (inv_sorted st Hinv). }
  split; [assumption | now apply get_contact_missing].
Qed.

Lemma deleted_id_never_returns_witness :
  get_contact 1
    (snd (run [OpCreate (mkRequest POST anna_body); OpList]
            (snd (delete_contact 1
                    (snd (step (OpCreate (mkRequest POST ivan_body))
                            fresh)))))) =
  (Ok (not_found 1), mkRegistry [(2, anna_record)] 3).
Proof.
  exact (proj2 (deleted_id_never_returns
                  (snd (step (OpCreate (mkRequest POST ivan_body)) fresh)) 1
                  [OpCreate (mkRequest POST anna_body); OpList]
                  (reachable_step _ _ reachable_fresh) eq_refl)).
Defined.

(** X9: a stored contact is never altered: in a reachable registry, after
    any run that holds no Delete of its id, the same record is still stored
    under that id. *)
Theorem stored_contact_persists (st : registry) (k : Z)
    (c : dict string json) (ops : list op) :
  reachable st ->
  dict_get Z.eqb k (contacts_db st) = Some c ->
  deletes k ops = false ->
  dict_get Z.eqb k (contacts_db (snd (run ops st))) = Some c.
Proof.
  intros Hr. apply reachable_inv in Hr. revert st Hr.
  induction ops as [|o ops IH]; intros st Hinv Hg Hnd; [assumption|].
  unfold deletes in Hnd. cbn [existsb] in Hnd.
  apply orb_false_iff in Hnd as [Ho Hnd].
  rewrite run_snd_cons. apply IH; [now apply step_inv | | exact Hnd].
  apply step_lookup; [assumption | assumption |].
  unfold deletes. cbn [existsb]. now rewrite Ho.
Qed.

Lemma stored_contact_persists_witness :
  dict_get Z.eqb 1
    (contacts_db
       (snd (run [OpCreate (mkRequest POST anna_body); OpDelete 2;
                  OpCreate (mkRequest POST list_body); OpGet 1]
               (snd (step (OpCreate (mkRequest POST ivan_body)) fresh))))) =
  Some ivan_record.
Proof.
  apply (stored_contact_persists
           (snd (step (OpCreate (mkRequest POST ivan_body)) fresh)) 1
           ivan_record
           [OpCreate (mkRequest POST anna_body); OpDelete 2;
            OpCreate (mkRequest POST list_body); OpGet 1]
           (reachable_step _ _ reachable_fresh));
    reflexivity.
Defined.

(** X10: in a reachable registry, a successful Create followed by Delete of
    the id it returned gives the created record back and restores the
    mapping exactly; only the counter remains advanced by one. *)
Theorem create_then_delete (st : registry) (d : dict string json)
    (name phone : json) :
  reachable st ->
  dict_get String.eqb "name" d = Some name ->
  dict_get String.eqb "phone" d = Some phone ->
  let contact_id := contact_counter st in
  let contact := contact_of contact_id name phone (email_of d) in
  fst (create_contact (mkRequest POST (JObj d)) st) =
    Ok (mkResponse (jsonify contact) 201) /\
  delete_contact contact_id
    (snd (create_contact (mkRequest POST (JObj d)) st)) =
  (Ok (mkResponse
         (jsonify
            [("message",
              JStr ("Contact " ++ str_of_int contact_id
                    ++ " deleted successfully")%string);
             ("deleted_contact", JObj contact)])
         200),
   mkRegistry (contacts_db st) (contact_counter st + 1)).
Proof.
  intros Hr Hn Hp contact_id contact.
  pose proof (counter_not_stored st (reachable_inv st Hr)) as Hfree.
  rewrite (create_contact_stored st d name phone Hn Hp).
  cbn [fst snd]. fold contact_id. fold contact.
  split; [reflexivity|].
  rewrite (delete_contact_stored contact_id _ contact).
  - cbn [contacts_db contact_counter].
    rewrite (dict_set_fresh Z.eqb _ _ _ Hfree).
    now rewrite (dict_remove_snoc _ _ _ Hfree).
  - cbn [contacts_db]. apply (dict_get_set_same Z.eqb Zeqb_eq).
Qed.

Lemma create_then_delete_witness :
  fst (create_contact (mkRequest POST anna_body)
         (snd (step (OpCreate (mkRequest POST ivan_body)) fresh))) =
    Ok (mkResponse (jsonify anna_record) 201) /\
  delete_contact 2
    (snd (create_contact (mkRequest POST anna_body)
            (snd (step (OpCreate (mkRequest POST ivan_body)) fresh)))) =
  (Ok (mkResponse
         (jsonify
            [("message", JStr "Contact 2 deleted successfully");
             ("deleted_contact", JObj anna_record)])
         200),
   mkRegistry [(1, ivan_record)] 3).
Proof.
  exact (create_then_delete
           (snd (step (OpCreate (mkRequest POST ivan_body)) fresh))
           [("name", JStr "Anna"); ("phone", JStr "1");
            ("email", JStr "a@x.com")]
           (JStr "Anna") (JStr "1")
           (reachable_step _ _ reachable_fresh) eq_refl eq_refl).
Defined.

(** X11: in a reachable registry, List after a successful Create returns
    the contacts List returned before, in the same order, followed by the
    new record, and a count one higher. *)
Theorem create_then_list (st : registry) (d : dict string json)
    (name phone : json) :
  reachable st ->
  dict_get String.eqb "name" d = Some name ->
  dict_get String.eqb "phone" d = Some phone ->
  let contact :=
    contact_of (contact_counter st) name phone (email_of d) in
  let st' := snd (create_contact (mkRequest POST (JObj d)) st) in
  get_all_contacts st' =
  (Ok (mkResponse
         (jsonify
            [("contacts",
              JArr (map JObj (dict_values (contacts_db st))
                    ++ [JObj contact]));
             ("count", JInt (dict_len (contacts_db st) + 1))])
         200), st').
Proof.
  intros Hr Hn Hp contact st'. subst st'.
  pose proof (counter_not_stored st (reachable_inv st Hr)) as Hfree.
  rewrite (create_contact_stored st d name phone Hn Hp).
  cbn [snd]. fold contact. unfold get_all_contacts.
  cbn [contacts_db]. rewrite (dict_set_fresh Z.eqb _ _ _ Hfree).
  unfold dict_values, dict_len. rewrite !map_app, length_app.
  cbn [map snd List.length].
  replace (Z.of_nat (List.length (contacts_db st) + 1))
    with (Z.of_nat (List.length (contacts_db st)) + 1) by lia.
  reflexivity.
Qed.

Lemma create_then_list_witness :
  get_all_contacts
    (snd (create_contact (mkRequest POST anna_body)
            (snd (step (OpCreate (mkRequest POST ivan_body)) fresh)))) =
  (Ok (mkResponse
         (jsonify
            [("contacts", JArr [JObj ivan_record; JObj anna_record]);
             ("count", JInt 2)])
         200),
   mkRegistry [(1, ivan_record); (2, anna_record)] 3).
Proof.
  exact (create_then_list
           (snd (step (OpCreate (mkRequest POST ivan_body)) fresh))
           [("name", JStr "Anna"); ("phone", JStr "1");
            ("email", JStr "a@x.com")]
           (JStr "Anna") (JStr "1")
           (reachable_step _ _ reachable_fresh) eq_refl eq_refl).
Defined.

(** X12: after any run from the fresh registry, the number of stored
    contacts, which is the [count] List reports, equals the number of
    Creates answered 201 minus the number of Deletes answered 200. *)
Theorem count_is_created_minus_deleted (ops : list op) :
  let rs := fst (run ops fresh) in
  let st := snd (run ops fresh) in
  dict_len (contacts_db st) =
    Z.of_nat (List.length (created_ids rs))
    - Z.of_nat (successful_deletes ops rs) /\
  response_count (fst (get_all_contacts st)) =
    Some (Z.of_nat (List.length (created_ids rs))
          - Z.of_nat (successful_deletes ops rs)).
Proof.
  intros rs st. subst rs st.
  pose proof (run_len ops fresh fresh_inv) as Hlen.
  change (dict_len (contacts_db fresh)) with 0 in Hlen.
  split; [lia|]. cbn. f_equal. lia.
Qed.

(** X13: after any run from the fresh registry, a 200 answer of Get carries
    in its [id] field the id that was asked for. *)
Theorem get_contact_same_id (ops : list op) (k : Z) (resp : response) :
  fst (get_contact k (snd (run ops fresh))) = Ok resp ->
  status resp = 200 ->
  json_int (json_field "id" (body resp)) = Some k.
Proof.
  assert (Hinv : registry_inv (snd (run ops fresh)))
    by (apply reachable_inv, run_reachable, reachable_fresh).
  destruct (dict_get Z.eqb k (contacts_db (snd (run ops fresh))))
    as [c|] eqn:Hg.
  - rewrite (get_contact_stored _ k c Hinv Hg). cbn [fst].
    destruct (stored_contact_truthy _ k c Hinv Hg)
      as (name & phone & email & ->).
    intros [= <-] _. reflexivity.
  - rewrite (get_contact_missing _ k Hg). cbn [fst].
    intros [= <-]. discriminate.
Qed.

Lemma get_contact_same_id_witness :
  json_int
    (json_field "id" (body (mkResponse (jsonify anna_record) 200))) = Some 2.
Proof.
  apply (get_contact_same_id
           [OpCreate (mkRequest POST ivan_body);
            OpCreate (mkRequest POST anna_body)] 2
           (mkResponse (jsonify anna_record) 200));
    reflexivity.
Defined.

(** X14: Create reads nothing of a valid body but its [name], [phone] and
    [email] entries: two dicts that agree on these three get the same
    answer and leave the same state, so an [id] or any other key sent by
    the client is ignored. *)
Theorem create_contact_reads_three_keys (st : registry)
    (d d' : dict string json) (name phone : json) :
  dict_get String.eqb "name" d = Some name ->
  dict_get String.eqb "phone" d = Some phone ->
  dict_get String.eqb "name" d' = Some name ->
  dict_get String.eqb "phone" d' = Some phone ->
  dict_get String.eqb "email" d' = dict_get String.eqb "email" d ->
  create_contact (mkRequest POST (JObj d')) st =
  create_contact (mkRequest POST (JObj d)) st.
Proof.
  intros Hn Hp Hn' Hp' He.
  rewrite (create_contact_stored st d name phone Hn Hp).
  rewrite (create_contact_stored st d' name phone Hn' Hp').
  unfold email_of. now rewrite He.
Qed.

Lemma create_contact_reads_three_keys_witness :
  create_contact
    (mkRequest POST
       (JObj [("id", JInt 99); ("phone", JStr "+7 999 123-45-67");
              ("note", JNull); ("name", JStr "Ivan Ivanov")])) fresh =
  create_contact (mkRequest POST ivan_body) fresh.
Proof.
  apply (create_contact_reads_three_keys fresh
           [("name", JStr "Ivan Ivanov"); ("phone", JStr "+7 999 123-45-67")]
           [("id", JInt 99); ("phone", JStr "+7 999 123-45-67");
            ("note", JNull); ("name", JStr "Ivan Ivanov")]
           (JStr "Ivan Ivanov") (JStr "+7 999 123-45-67"));
    reflexivity.
Defined.



(** X16: in every reachable registry the counter is at least 1, every
    stored id lies between 1 and the counter excluded, no id is stored
    twice, and nothing is stored under the counter's own value, so the
    next Create overwrites no contact. *)
Theorem stored_ids_below_counter (st : registry) :
  reachable st ->
  1 <= contact_counter st /\
  (forall k, In k (dict_keys (contacts_db st)) ->
             1 <= k < contact_counter st) /\
  NoDup (dict_keys (contacts_db st)) /\
  dict_get Z.eqb (contact_counter st) (contacts_db st) = None.
Proof.
  intros Hr. pose proof (reachable_inv st Hr) as Hinv.
  split; [exact (inv_counter st Hinv)|].
  split; [intros k; now apply stored_key_bound|].
  split; [apply sorted_NoDup, (inv_sorted st Hinv)|].
  now apply counter_not_stored.
Qed.

Lemma stored_ids_below_counter_witness :
  1 <= 3 /\
  (forall k, In k [2] -> 1 <= k < 3) /\
  NoDup [2] /\
  dict_get Z.eqb 3 [(2, anna_record)] = None.
Proof.
  exact (stored_ids_below_counter
           (snd (run [OpCreate (mkRequest POST ivan_body);
                      OpCreate (mkRequest POST anna_body);
                      OpDelete 1] fresh))
           (run_reachable _ _ reachable_fresh)).
Defined.

(** X17: with dict or absent bodies throughout, the counter after a run
    from the fresh registry is one more than the number of Creates
    answered 201; deletions never give an id back. *)
Theorem counter_after_run (ops : list op) :
  forallb object_payload ops = true ->
  contact_counter (snd (run ops fresh)) =
  1 + Z.of_nat (List.length (created_ids (fst (run ops fresh)))).
Proof.
  intros Hobj. now destruct (run_ids_consecutive ops Hobj fresh) as [_ ->].
Qed.

Lemma counter_after_run_witness :
  contact_counter
    (snd (run [OpCreate (mkRequest POST ivan_body); OpDelete 1;
               OpCreate (mkRequest POST (JObj []));
               OpCreate (mkRequest POST anna_body)] fresh)) =
  1 + Z.of_nat
        (List.length
           (created_ids
              (fst (run [OpCreate (mkRequest POST ivan_body); OpDelete 1;
                         OpCreate (mkRequest POST (JObj []));
                         OpCreate (mkRequest POST anna_body)] fresh)))).
Proof.
  apply (counter_after_run
           [OpCreate (mkRequest POST ivan_body); OpDelete 1;
            OpCreate (mkRequest POST (JObj []));
            OpCreate (mkRequest POST anna_body)]).
  reflexivity.
Defined.

(** X18: a request answered 400 or 404 leaves the counter and the mapping
    exactly as they were, in every state: a rejected Create, a Get and a
    Delete of an id that is not stored have no effect. *)
Theorem error_answer_keeps_state (o : op) (st : registry) :
  has_status 400 (fst (step o st)) || has_status 404 (fst (step o st)) = true ->
  snd (step o st) = st.
Proof.
  destruct o as [r|i|i| | ]; cbn [step].
  - destruct (create_contact_outcome r st); cbn; congruence.
  - intros _. apply get_contact_state.
  - destruct (dict_get Z.eqb i (contacts_db st)) as [c|] eqn:Hi.
    + rewrite (delete_contact_stored _ _ _ Hi). cbn. discriminate.
    + now rewrite (delete_contact_missing _ _ Hi).
  - reflexivity.
  - reflexivity.
Qed.

Lemma error_answer_keeps_state_witness :
  snd (step (OpDelete 2)
         (snd (step (OpCreate (mkRequest POST ivan_body)) fresh))) =
  snd (step (OpCreate (mkRequest POST ivan_body)) fresh).
Proof.
  apply (error_answer_keeps_state (OpDelete 2)
           (snd (step (OpCreate (mkRequest POST ivan_body)) fresh))).
  reflexivity.
Defined.

(** X19: after any run from the fresh registry, the contacts List returns
    are exactly the records Get can return with status 200; each listed
    contact is returned by Get of the id in its own [id] field. *)
Theorem listed_iff_gettable (ops : list op) (c : dict string json) :
  let st := snd (run ops fresh) in
  (In c (dict_values (contacts_db st)) <->
   exists k, get_contact k st = (Ok (mkResponse (jsonify c) 200), st)) /\
  (In c (dict_values (contacts_db st)) ->
   exists k, json_int (json_field "id" (JObj c)) = Some k /\
             get_contact k st = (Ok (mkResponse (jsonify c) 200), st)).
Proof.
  intros st.
  assert (Hinv : registry_inv st)
    by (apply reachable_inv, run_reachable, reachable_fresh).
  pose proof (sorted_NoDup _ (inv_sorted st Hinv)) as Hnd.
  assert (Hfwd : In c (dict_values (contacts_db st)) ->
    exists k, json_int (json_field "id" (JObj c)) = Some k /\
              get_contact k st = (Ok (mkResponse (jsonify c) 200), st)).
  { intros Hin. unfold dict_values in Hin. apply in_map_iff in Hin.
    destruct Hin as ([k c'] & Hc & Hin). cbn [snd] in Hc. subst c'.
    apply (In_dict_get Z.eqb Zeqb_eq _ _ _ Hnd) in Hin.
    exists k. split; [|now apply get_contact_stored].
    destruct (stored_contact_truthy st k c Hinv Hin)
      as (name & phone & email & ->).
    reflexivity. }
  split; [|exact Hfwd]. split.
  - intros Hin. destruct (Hfwd Hin) as (k & _ & Hget). now exists k.
  - intros [k Hget].
    destruct (dict_get Z.eqb k (contacts_db st)) as [c'|] eqn:Hg.
    + rewrite (get_contact_stored st k c' Hinv Hg) in Hget.
      injection Hget as ->.
      apply (dict_get_In Z.eqb Zeqb_eq) in Hg. unfold dict_values.
      change c with (snd (k, c)). now apply in_map.
    + rewrite (get_contact_missing st k Hg) in Hget. discriminate Hget.
Qed.
